(** * delayload_stub.c: the delay-load linker directive stub

    The translation unit [uicp/src-tauri/build/windows/delayload_stub.c]
    holds two MSVC [#pragma comment] lines behind [#ifdef _MSC_VER] and one
    empty exported function.  This development embeds the file as a value
    of a small C abstract syntax, gives the preprocessor, the compiler's
    treatment of [#pragma comment], the object file, the linker's symbol
    resolution and its reading of the objects' directives an executable
    model, and states the properties of the file against that model. *)

From Stdlib Require Import ZArith Ascii String.
From stdpp Require Import base strings list gmap.

Set Warnings "-register-all".

Local Open Scope string_scope.
Local Open Scope list_scope.

(** ** Strings as the linker reads them

    Linker options and library names are matched without regard to case. *)

Definition lower_ascii (c : ascii) : ascii :=
  let n := nat_of_ascii c in
  if (Nat.leb 65 n && Nat.leb n 90)%bool then ascii_of_nat (n + 32) else c.

Fixpoint lowercase (s : string) : string :=
  match s with
  | EmptyString => EmptyString
  | String c r => String (lower_ascii c) (lowercase r)
  end.

Fixpoint strip_prefix (p s : string) : option string :=
  match p, s with
  | EmptyString, _ => Some s
  | String a p', String b s' => if Ascii.eqb a b then strip_prefix p' s' else None
  | String _ _, EmptyString => None
  end.

Fixpoint contains (needle hay : string) : bool :=
  match strip_prefix needle hay with
  | Some _ => true
  | None =>
      match hay with
      | EmptyString => false
      | String _ r => contains needle r
      end
  end.

(** ** Abstract syntax of the C fragment *)

Inductive ctype := Tvoid | Tint.

(** A function without a storage-class specifier has external linkage;
    [static] gives it internal linkage. *)
Inductive storage_class := NoSpecifier | Static.

Inductive expr :=
| Econst (n : Z)
| Evar (x : string).

Inductive stmt :=
| Sassign (x : string) (e : expr)
| Scall (callee : string) (args : list expr)
| Sif (c : expr) (then_ else_ : list stmt)
| Swhile (c : expr) (body : list stmt)
| Sreturn (e : option expr)
| Sblock (body : list stmt).

Record fundef := {
  fn_storage : storage_class;
  fn_return : ctype;
  fn_name : string;
  fn_params : list (ctype * string);
  fn_body : list stmt
}.

(** The comment-type of MSVC's [#pragma comment(type, "argument")]. *)
Inductive comment_type := CommentCompiler | CommentLib | CommentLinker | CommentUser.

Inductive top_item :=
| Ifdef (macro : string) (body : list top_item)
| PragmaComment (ty : comment_type) (arg : string)
| FunctionDef (f : fundef).

Definition translation_unit := list top_item.

(** ** The source file *)

(** [void uicp_force_comctl32_delayload(void) {}] *)
Definition uicp_force_comctl32_delayload : fundef := {|
  fn_storage := NoSpecifier;
  fn_return := Tvoid;
  fn_name := "uicp_force_comctl32_delayload";
  fn_params := [];
  fn_body := []
|}.

(** The whole file, comments dropped:
<<
#ifdef _MSC_VER
#  pragma comment(linker, "/delayload:comctl32.dll")
#  pragma comment(lib, "comctl32.lib")
#endif
void uicp_force_comctl32_delayload(void) {}
>> *)
Definition delayload_stub : translation_unit :=
  [ Ifdef "_MSC_VER"
      [ PragmaComment CommentLinker "/delayload:comctl32.dll";
        PragmaComment CommentLib "comctl32.lib" ];
    FunctionDef uicp_force_comctl32_delayload ].

(** ** Preprocessor *)

(** The macro table: name to replacement text.  [#ifdef M] only asks
    whether [M] has an entry. *)
Definition defined (macros : gmap string string) (m : string) : bool :=
  bool_decide (is_Some (macros !! m)).

Fixpoint preprocess_item (macros : gmap string string) (t : top_item) : list top_item :=
  match t with
  | Ifdef m body =>
      if defined macros m
      then (fix go (l : list top_item) : list top_item :=
              match l with
              | [] => []
              | x :: r => preprocess_item macros x ++ go r
              end) body
      else []
  | _ => [t]
  end.

Definition preprocess (macros : gmap string string) (tu : translation_unit) : list top_item :=
  flat_map (preprocess_item macros) tu.

Definition functions (items : list top_item) : list fundef :=
  flat_map (fun t => match t with FunctionDef f => [f] | _ => [] end) items.

Definition pragmas (items : list top_item) : list (comment_type * string) :=
  flat_map (fun t => match t with PragmaComment ty a => [(ty, a)] | _ => [] end) items.

(** ** Execution of function bodies

    The machine state a caller can observe: the global variables and the
    trace of calls that left the program. *)

Record machine := {
  globals : gmap string Z;
  trace : list (string * list Z)
}.

Inductive outcome :=
| Fallthrough (locals : gmap string Z) (m : machine)
| Returns (v : option Z) (m : machine)
| Stuck
| OutOfFuel.

Definition eval (locals : gmap string Z) (m : machine) (e : expr) : option Z :=
  match e with
  | Econst n => Some n
  | Evar x =>
      match locals !! x with
      | Some v => Some v
      | None => globals m !! x
      end
  end.

Definition eval_args (locals : gmap string Z) (m : machine) (es : list expr) : option (list Z) :=
  mapM (eval locals m) es.

Definition assign (x : string) (v : Z) (locals : gmap string Z) (m : machine)
  : gmap string Z * machine :=
  match locals !! x with
  | Some _ => (<[x := v]> locals, m)
  | None => (locals, {| globals := <[x := v]> (globals m); trace := trace m |})
  end.

Definition emit (callee : string) (vs : list Z) (m : machine) : machine :=
  {| globals := globals m; trace := trace m ++ [(callee, vs)] |}.

(** One unit of fuel is spent per statement executed; the list is the
    continuation, so an empty list spends nothing. *)
Fixpoint exec (fuel : nat) (k : list stmt) (locals : gmap string Z) (m : machine) : outcome :=
  match k with
  | [] => Fallthrough locals m
  | st :: rest =>
      match fuel with
      | O => OutOfFuel
      | S n =>
          match st with
          | Sassign x e =>
              match eval locals m e with
              | Some v => let '(l', m') := assign x v locals m in exec n rest l' m'
              | None => Stuck
              end
          | Scall callee args =>
              match eval_args locals m args with
              | Some vs => exec n rest locals (emit callee vs m)
              | None => Stuck
              end
          | Sif c t e =>
              match eval locals m c with
              | Some v => exec n ((if Z.eqb v 0%Z then e else t) ++ rest) locals m
              | None => Stuck
              end
          | Swhile c body =>
              match eval locals m c with
              | Some v => exec n (if Z.eqb v 0%Z then rest else body ++ st :: rest) locals m
              | None => Stuck
              end
          | Sreturn None => Returns None m
          | Sreturn (Some e) =>
              match eval locals m e with
              | Some v => Returns (Some v) m
              | None => Stuck
              end
          | Sblock body => exec n (body ++ rest) locals m
          end
      end
  end.

Inductive call_result :=
| Done (ret : option Z) (m : machine)
| Fault
| Timeout.

Definition bind_params (params : list (ctype * string)) (args : list Z) : gmap string Z :=
  list_to_map (zip (snd <$> params) args).

(** A call passes exactly as many arguments as the function has
    parameters; a [void] function yields no value, a non-void one must
    reach a [return] with one. *)
Definition call (fuel : nat) (f : fundef) (args : list Z) (m : machine) : call_result :=
  if negb (Nat.eqb (length args) (length (fn_params f))) then Fault
  else
    match exec fuel (fn_body f) (bind_params (fn_params f) args) m, fn_return f with
    | Fallthrough _ m', Tvoid => Done None m'
    | Fallthrough _ _, Tint => Fault
    | Returns None m', Tvoid => Done None m'
    | Returns (Some v) m', Tint => Done (Some v) m'
    | Returns _ _, _ => Fault
    | Stuck, _ => Fault
    | OutOfFuel, _ => Timeout
    end.

(** ** Toolchain, object file and compilation *)

(** What a compiler does with a [#pragma comment] that survives
    preprocessing: MSVC-compatible compilers record it in the object
    file; others ignore an unknown pragma, or reject it when unknown
    pragmas are errors. *)
Inductive pragma_policy := Honoured | Ignored | Rejected.

Record toolchain := {
  predefined : gmap string string;
  pragma_comment : pragma_policy
}.

(** The [#ifdef _MSC_VER] branch of the file is taken. *)
Definition msc_ver (tc : toolchain) : bool := defined (predefined tc) "_MSC_VER".

(** The toolchain understands the pragma form and announces it. *)
Definition supports_pragma_form (tc : toolchain) : Prop :=
  msc_ver tc = true ∧ pragma_comment tc = Honoured.

(** A toolchain that announces [_MSC_VER] does not reject MSVC's pragma. *)
Definition supported (tc : toolchain) : Prop :=
  msc_ver tc = true → pragma_comment tc ≠ Rejected.

(** The contents of the object file's [.drectve] section. *)
Inductive directive :=
| LinkerOption (opt : string)
| DefaultLib (lib : string).

Inductive binding := Global | Local.

Record symbol := {
  sym_name : string;
  sym_binding : binding
}.

Record object_file := {
  drectve : list directive;
  symtab : list symbol;
  text : list fundef;
  undefined : list string
}.

Inductive failure :=
| UnknownPragma (arg : string)
| Redefinition (name : string)
| DuplicateSymbol (name : string)
| Unresolved (name : string).

(** The build error the file's header comment names. *)
Inductive build_error := E_UICP_0101 (why : failure).

Definition lower_pragma (policy : pragma_policy) (p : comment_type * string)
  : build_error + list directive :=
  match policy with
  | Rejected => inl (E_UICP_0101 (UnknownPragma (snd p)))
  | Ignored => inr []
  | Honoured =>
      inr match fst p with
          | CommentLinker => [LinkerOption (snd p)]
          | CommentLib => [DefaultLib (snd p)]
          | CommentCompiler | CommentUser => []
          end
  end.

Fixpoint lower_pragmas (policy : pragma_policy) (ps : list (comment_type * string))
  : build_error + list directive :=
  match ps with
  | [] => inr []
  | p :: r =>
      match lower_pragma policy p with
      | inl e => inl e
      | inr ds =>
          match lower_pragmas policy r with
          | inl e => inl e
          | inr ds' => inr (ds ++ ds')
          end
      end
  end.

Definition mem (x : string) (l : list string) : bool := existsb (String.eqb x) l.

Fixpoint first_duplicate (names : list string) : option string :=
  match names with
  | [] => None
  | n :: r => if mem n r then Some n else first_duplicate r
  end.

Fixpoint callees (s : stmt) : list string :=
  match s with
  | Scall c _ => [c]
  | Sif _ t e => flat_map callees t ++ flat_map callees e
  | Swhile _ b => flat_map callees b
  | Sblock b => flat_map callees b
  | Sassign _ _ | Sreturn _ => []
  end.

Definition symbol_of (f : fundef) : symbol :=
  {| sym_name := fn_name f;
     sym_binding := match fn_storage f with NoSpecifier => Global | Static => Local end |}.

Definition compile (tc : toolchain) (tu : translation_unit) : build_error + object_file :=
  let items := preprocess (predefined tc) tu in
  match lower_pragmas (pragma_comment tc) (pragmas items) with
  | inl e => inl e
  | inr ds =>
      let fs := functions items in
      let names := fn_name <$> fs in
      match first_duplicate names with
      | Some n => inl (E_UICP_0101 (Redefinition n))
      | None =>
          inr {| drectve := ds;
                 symtab := symbol_of <$> fs;
                 text := fs;
                 undefined :=
                   List.filter (fun c => negb (mem c names))
                     (flat_map (fun f => flat_map callees (fn_body f)) fs) |}
      end
  end.

(** ** Linker *)

Definition is_global (s : symbol) : bool :=
  match sym_binding s with Global => true | Local => false end.

Definition global_names (o : object_file) : list string :=
  sym_name <$> List.filter is_global (symtab o).

Definition exports (o : object_file) (name : string) : bool := mem name (global_names o).

(** The object that satisfies a reference to [name], if any. *)
Definition resolve (objs : list object_file) (name : string) : option object_file :=
  List.find (fun o => exports o name) objs.

(** [/name:argument] or [-name:argument], in any case; the argument is
    returned in lower case. *)
Definition option_arg (name opt : string) : option string :=
  let o := lowercase opt in
  match strip_prefix (String.append "/" (String.append name ":")) o with
  | Some a => Some a
  | None => strip_prefix (String.append "-" (String.append name ":")) o
  end.

Definition default_libs (o : object_file) : list string :=
  flat_map (fun d => match d with
                     | DefaultLib l => [lowercase l]
                     | LinkerOption opt =>
                         match option_arg "defaultlib" opt with
                         | Some l => [l]
                         | None => []
                         end
                     end) (drectve o).

(** The DLLs the directives of an object name in a [/delayload] option.
    This is what the object asks for; what a linker makes of the request
    is [read_inputs]. *)
Definition delay_loaded (o : object_file) : list string :=
  flat_map (fun d => match d with
                     | LinkerOption opt =>
                         match option_arg "delayload" opt with
                         | Some dll => [dll]
                         | None => []
                         end
                     | DefaultLib _ => []
                     end) (drectve o).

(** The libraries the linker searches: those on its command line, then
    those the objects ask for. *)
Definition linked_libraries (cmdline : list string) (objs : list object_file) : list string :=
  (lowercase <$> cmdline) ++ flat_map default_libs objs.

Inductive import_binding := LoadTime | DelayLoad.

(** The binding of the imports of [dll] that the directives of the
    objects ask for. *)
Definition import_binding_of (objs : list object_file) (dll : string) : import_binding :=
  if mem (lowercase dll) (flat_map delay_loaded objs) then DelayLoad else LoadTime.

Record image := {
  img_libraries : list string;
  img_delayload : list string;
  img_symbols : list string
}.

(** Linking at the level of symbols: definitions must be unique and
    every reference must find one.  Library files are not opened, and
    the directives are recorded as the objects give them. *)
Definition link (cmdline : list string) (objs : list object_file) : build_error + image :=
  let defs := flat_map global_names objs in
  match first_duplicate defs with
  | Some n => inl (E_UICP_0101 (DuplicateSymbol n))
  | None =>
      match List.find (fun n => negb (mem n defs)) (flat_map undefined objs) with
      | Some n => inl (E_UICP_0101 (Unresolved n))
      | None =>
          inr {| img_libraries := linked_libraries cmdline objs;
                 img_delayload := flat_map delay_loaded objs;
                 img_symbols := defs |}
      end
  end.

(** MSVC's delay-load helper library, the one the header comment of the
    file calls [delayimp]; the name may be given with or without [.lib]. *)
Definition is_delay_helper (lib : string) : bool :=
  let l := lowercase lib in
  (String.eqb l "delayimp.lib" || String.eqb l "delayimp")%bool.

Definition names_delay_helper (d : directive) : bool :=
  match d with
  | LinkerOption s | DefaultLib s => contains "delayimp" (lowercase s)
  end.

(** ** Toolchains and objects used as concrete instances *)

Definition msvc : toolchain :=
  {| predefined := {[ "_MSC_VER" := "1938" ]}; pragma_comment := Honoured |}.

Definition gcc : toolchain :=
  {| predefined := {[ "__GNUC__" := "13" ]}; pragma_comment := Ignored |}.

(** A compiler without [_MSC_VER] for which unknown pragmas are errors. *)
Definition gcc_strict : toolchain :=
  {| predefined := {[ "__GNUC__" := "13" ]}; pragma_comment := Rejected |}.

(** An object of another translation unit that only refers to [name]. *)
Definition referencing_object (name : string) : object_file :=
  {| drectve := [];
     symtab := [ {| sym_name := "main"; sym_binding := Global |} ];
     text := [];
     undefined := [name] |}.

(** The object every successful compilation of the file produces, up to
    its directives. *)
Definition stub_object (ds : list directive) : object_file :=
  {| drectve := ds;
     symtab := [ {| sym_name := "uicp_force_comctl32_delayload"; sym_binding := Global |} ];
     text := [ uicp_force_comctl32_delayload ];
     undefined := [] |}.

Definition stub_directives : list directive :=
  [ LinkerOption "/delayload:comctl32.dll"; DefaultLib "comctl32.lib" ].

(** The file with its guard removed, and with the function made
    [static]: two variants the source is compared against. *)
Definition unguarded_stub : translation_unit :=
  [ PragmaComment CommentLinker "/delayload:comctl32.dll";
    PragmaComment CommentLib "comctl32.lib";
    FunctionDef uicp_force_comctl32_delayload ].

Definition static_stub : translation_unit :=
  [ FunctionDef {| fn_storage := Static;
                   fn_return := Tvoid;
                   fn_name := "uicp_force_comctl32_delayload";
                   fn_params := [];
                   fn_body := [] |} ].

Definition idle : machine := {| globals := ∅; trace := [] |}.

(** A compiler that announces [_MSC_VER] and yet treats
    [#pragma comment] as an error. *)
Definition msc_ver_strict : toolchain :=
  {| predefined := {[ "_MSC_VER" := "1938" ]}; pragma_comment := Rejected |}.

(** A compiler that announces [_MSC_VER] and drops [#pragma comment]. *)
Definition msc_ver_ignoring : toolchain :=
  {| predefined := {[ "_MSC_VER" := "1938" ]}; pragma_comment := Ignored |}.

(** The toolchain [tc] after [#define m v] on its command line. *)
Definition with_macro (m v : string) (tc : toolchain) : toolchain :=
  {| predefined := <[m := v]> (predefined tc); pragma_comment := pragma_comment tc |}.

(** The toolchain [tc] after [#undef m]. *)
Definition without_macro (m : string) (tc : toolchain) : toolchain :=
  {| predefined := delete m (predefined tc); pragma_comment := pragma_comment tc |}.

(** ** The directives as a linker reads them

    A linker takes any option from its command line, but from the
    [.drectve] section of an object only a fixed set: the options MSVC
    documents for [#pragma comment(linker, ...)] ([/DEFAULTLIB],
    [/EXPORT], [/INCLUDE], [/MANIFESTDEPENDENCY], [/MERGE], [/SECTION])
    and the few more that lld-link's driver lists as taken by link.exe
    there.  [/DELAYLOAD] is not among them.  On any other option link.exe
    warns (LNK4229) and goes on without it; lld-link stops. *)

Inductive linker := LinkExe | LldLink.

Definition drectve_options : list string :=
  [ "aligncomm"; "alternatename"; "defaultlib"; "editandcontinue"; "entry";
    "export"; "failifmismatch"; "guardsym"; "include"; "inferasanlibs";
    "manifestdependency"; "merge"; "nodefaultlib"; "release"; "section";
    "stack"; "subsystem"; "throwingnew" ].

Fixpoint until_colon (s : string) : string :=
  match s with
  | EmptyString => EmptyString
  | String c r => if Ascii.eqb c ":" then EmptyString else String c (until_colon r)
  end.

(** The name of an option: its text in lower case, without the leading
    [/] or [-] and without the argument. *)
Definition option_name (opt : string) : string :=
  match lowercase opt with
  | EmptyString => EmptyString
  | String c r =>
      if (Ascii.eqb c "/" || Ascii.eqb c "-")%bool
      then until_colon r
      else until_colon (String c r)
  end.

Definition taken_from_drectve (opt : string) : bool :=
  mem (option_name opt) drectve_options.

Inductive drectve_error := NotAllowedInDrectve (opt : string).

(** What the linker has gathered from its inputs: the options in force,
    the default libraries asked for, and the directives it passed over
    with a warning. *)
Record reading := {
  rd_options : list string;
  rd_libraries : list string;
  rd_ignored : list string
}.

Definition read_directive (lk : linker) (d : directive) (r : reading)
  : drectve_error + reading :=
  match d with
  | DefaultLib l =>
      inr {| rd_options := rd_options r;
             rd_libraries := rd_libraries r ++ [lowercase l];
             rd_ignored := rd_ignored r |}
  | LinkerOption opt =>
      if taken_from_drectve opt
      then inr {| rd_options := rd_options r ++ [opt];
                  rd_libraries :=
                    rd_libraries r ++ match option_arg "defaultlib" opt with
                                      | Some l => [l]
                                      | None => []
                                      end;
                  rd_ignored := rd_ignored r |}
      else
        match lk with
        | LinkExe =>
            inr {| rd_options := rd_options r;
                   rd_libraries := rd_libraries r;
                   rd_ignored := rd_ignored r ++ [opt] |}
        | LldLink => inl (NotAllowedInDrectve opt)
        end
  end.

Fixpoint read_directives (lk : linker) (ds : list directive) (r : reading)
  : drectve_error + reading :=
  match ds with
  | [] => inr r
  | d :: rest =>
      match read_directive lk d r with
      | inl e => inl e
      | inr r' => read_directives lk rest r'
      end
  end.

(** The command line first, then the objects in order. *)
Definition read_inputs (lk : linker) (cmdline_options : list string) (objs : list object_file)
  : drectve_error + reading :=
  read_directives lk (flat_map drectve objs)
    {| rd_options := cmdline_options; rd_libraries := []; rd_ignored := [] |}.

(** The DLLs of the image's delay-load import table. *)
Definition delay_load_table (r : reading) : list string :=
  flat_map (fun opt => match option_arg "delayload" opt with
                       | Some dll => [dll]
                       | None => []
                       end) (rd_options r).

Definition binding_in (r : reading) (dll : string) : import_binding :=
  if mem (lowercase dll) (delay_load_table r) then DelayLoad else LoadTime.

(** * Properties *)

(** ** The model distinguishes programs *)

Example exec_assign_changes_globals :
  exec 1 [Sassign "g" (Econst 7)] ∅ idle
  = Fallthrough ∅ {| globals := {[ "g" := 7%Z ]}; trace := [] |}.
Proof. vm_compute. reflexivity. Qed.

Example exec_call_is_observable :
  exec 1 [Scall "puts" [Econst 1]] ∅ idle
  = Fallthrough ∅ {| globals := ∅; trace := [("puts", [1%Z])] |}.
Proof. vm_compute. reflexivity. Qed.

Example exec_loop_exhausts_fuel :
  exec 100 [Swhile (Econst 1) []] ∅ idle = OutOfFuel.
Proof. vm_compute. reflexivity. Qed.

Example unguarded_fails_when_pragmas_are_errors :
  compile gcc_strict unguarded_stub
  = inl (E_UICP_0101 (UnknownPragma "/delayload:comctl32.dll")).
Proof. vm_compute. reflexivity. Qed.

Example static_is_not_referenceable :
  ∃ obj, compile msvc static_stub = inr obj
         ∧ resolve [obj] "uicp_force_comctl32_delayload" = None
         ∧ link [] [referencing_object "uicp_force_comctl32_delayload"; obj]
           = inl (E_UICP_0101 (Unresolved "uicp_force_comctl32_delayload")).
Proof. eexists. split; [vm_compute; reflexivity|]. split; vm_compute; reflexivity. Qed.

Example option_arg_ignores_case :
  option_arg "delayload" "/DELAYLOAD:ComCtl32.dll" = Some "comctl32.dll"
  ∧ option_arg "delayload" "-delayload:user32.dll" = Some "user32.dll"
  ∧ option_arg "delayload" "/defaultlib:comctl32.lib" = None.
Proof. repeat split. Qed.

Example delay_helper_is_recognised :
  is_delay_helper "DelayImp.lib" = true
  ∧ names_delay_helper (DefaultLib "delayimp") = true
  ∧ names_delay_helper (LinkerOption "/defaultlib:delayimp.lib") = true
  ∧ is_delay_helper "comctl32.lib" = false.
Proof. repeat split. Qed.

(** With [#pragma comment(lib, "delayimp.lib")] in the file the link
    would search the helper library. *)
Example helper_pragma_would_be_linked :
  ∃ obj, compile msvc [PragmaComment CommentLib "delayimp.lib"] = inr obj
         ∧ existsb is_delay_helper (linked_libraries [] [obj]) = true.
Proof. eexists. split; vm_compute; reflexivity. Qed.

Example option_name_examples :
  option_name "/DELAYLOAD:comctl32.dll" = "delayload"
  ∧ option_name "-defaultlib:comctl32.lib" = "defaultlib"
  ∧ option_name "/release" = "release"
  ∧ taken_from_drectve "/DEFAULTLIB:comctl32.lib" = true
  ∧ taken_from_drectve "/include:_main" = true
  ∧ taken_from_drectve "/delayload:comctl32.dll" = false.
Proof. repeat split. Qed.

(** The same option on the command line of the linker is in force. *)
Example delayload_on_command_line :
  ∀ lk, ∃ r, read_inputs lk ["/DELAYLOAD:comctl32.dll"] [stub_object []] = inr r
             ∧ delay_load_table r = ["comctl32.dll"]
             ∧ binding_in r "COMCTL32.dll" = DelayLoad.
Proof. intros lk. eexists. split; [reflexivity|]. split; reflexivity. Qed.

(** An option of the list is taken from the object by both linkers. *)
Example defaultlib_option_is_taken :
  ∀ lk, read_directives lk [LinkerOption "/defaultlib:user32.lib"]
          {| rd_options := []; rd_libraries := []; rd_ignored := [] |}
        = inr {| rd_options := ["/defaultlib:user32.lib"];
                 rd_libraries := ["user32.lib"];
                 rd_ignored := [] |}.
Proof. intros lk. reflexivity. Qed.

(** ** Preprocessing and compiling the file *)

Lemma preprocess_stub (macros : gmap string string) :
  preprocess macros delayload_stub =
    (if defined macros "_MSC_VER"
     then [ PragmaComment CommentLinker "/delayload:comctl32.dll";
            PragmaComment CommentLib "comctl32.lib" ]
     else []) ++ [ FunctionDef uicp_force_comctl32_delayload ].
Proof.
  unfold preprocess, delayload_stub. simpl.
  destruct (defined macros "_MSC_VER"); reflexivity.
Qed.

Lemma functions_preprocess_stub (macros : gmap string string) :
  functions (preprocess macros delayload_stub) = [ uicp_force_comctl32_delayload ].
Proof. rewrite preprocess_stub. destruct (defined macros "_MSC_VER"); reflexivity. Qed.

Lemma compile_stub (tc : toolchain) :
  compile tc delayload_stub =
    match msc_ver tc, pragma_comment tc with
    | true, Rejected => inl (E_UICP_0101 (UnknownPragma "/delayload:comctl32.dll"))
    | true, Honoured => inr (stub_object stub_directives)
    | true, Ignored => inr (stub_object [])
    | false, _ => inr (stub_object [])
    end.
Proof.
  unfold compile, msc_ver. rewrite preprocess_stub.
  destruct (defined (predefined tc) "_MSC_VER"), (pragma_comment tc);
    vm_compute; reflexivity.
Qed.

Lemma compile_stub_msvc (tc : toolchain) :
  supports_pragma_form tc → compile tc delayload_stub = inr (stub_object stub_directives).
Proof. intros [Hm Hp]. rewrite compile_stub, Hm, Hp. reflexivity. Qed.

Lemma compile_stub_other (tc : toolchain) :
  msc_ver tc = false → compile tc delayload_stub = inr (stub_object []).
Proof. intros Hm. rewrite compile_stub, Hm. reflexivity. Qed.

Lemma compile_stub_supported (tc : toolchain) :
  supported tc → ∃ ds, compile tc delayload_stub = inr (stub_object ds).
Proof.
  intros Hs. rewrite compile_stub. unfold supported in Hs.
  destruct (msc_ver tc); [|by eexists].
  destruct (pragma_comment tc); [by eexists | by eexists |].
  by destruct Hs.
Qed.

(** Compilation fails exactly on the toolchains excluded by [supported]. *)
Lemma compile_stub_succeeds_iff (tc : toolchain) :
  (∃ obj, compile tc delayload_stub = inr obj) ↔ supported tc.
Proof.
  split.
  - intros [obj Hc] Hm Hp. rewrite compile_stub, Hm, Hp in Hc. discriminate.
  - intros Hs. destruct (compile_stub_supported tc Hs) as [ds Hc]. eauto.
Qed.

Lemma supports_pragma_form_supported (tc : toolchain) :
  supports_pragma_form tc → supported tc.
Proof. intros [_ Hp] _. rewrite Hp. discriminate. Qed.

Lemma without_msc_ver_supported (tc : toolchain) :
  msc_ver tc = false → supported tc.
Proof. intros Hm Hm'. congruence. Qed.

(** ** Resolution finds an exporting object wherever it stands *)

Lemma resolve_some (objs : list object_file) (o : object_file) (name : string) :
  o ∈ objs → exports o name = true →
  ∃ o', resolve objs name = Some o' ∧ exports o' name = true.
Proof.
  unfold resolve. induction 1 as [o l | o x l Hin IH]; intros He; simpl.
  - rewrite He. eauto.
  - destruct (exports x name) eqn:Hx; eauto.
Qed.

Lemma stub_object_exports (ds : list directive) :
  exports (stub_object ds) "uicp_force_comctl32_delayload" = true.
Proof. vm_compute. reflexivity. Qed.

Lemma link_stub_with_reference (cmdline : list string) (ds : list directive) :
  ∃ img, link cmdline [referencing_object "uicp_force_comctl32_delayload"; stub_object ds]
         = inr img
         ∧ "uicp_force_comctl32_delayload" ∈ img_symbols img.
Proof.
  eexists. split; [reflexivity|]. simpl. set_solver.
Qed.

(** ** Linker directives under the [_MSC_VER] branch *)

(** C1, as the specification words it, fails: on the MSVC toolchain the
    file compiles, and a link of its object with nothing else on the
    command line searches no delay-load helper library. *)
Lemma msvc_link_lacks_delay_helper :
  supports_pragma_form msvc
  ∧ ∃ obj, compile msvc delayload_stub = inr obj
           ∧ linked_libraries [] [obj] = ["comctl32.lib"]
           ∧ existsb is_delay_helper (linked_libraries [] [obj]) = false.
Proof.
  split; [split; vm_compute; reflexivity|].
  exists (stub_object stub_directives).
  split; [vm_compute; reflexivity|]. split; vm_compute; reflexivity.
Qed.

(** C1, amended: when the [_MSC_VER] branch is taken, the one library the
    object asks the linker for is [comctl32.lib], the import library of
    the delay-loaded DLL; every link that takes the object searches it,
    and the object itself does not ask for the delay-load helper. *)
Theorem stub_requests_comctl32_import_library (tc : toolchain) :
  supports_pragma_form tc →
  ∃ obj, compile tc delayload_stub = inr obj
         ∧ default_libs obj = ["comctl32.lib"]
         ∧ (∀ cmdline others, "comctl32.lib" ∈ linked_libraries cmdline (obj :: others))
         ∧ existsb is_delay_helper (default_libs obj) = false.
Proof.
  intros Htc. exists (stub_object stub_directives).
  split; [by apply compile_stub_msvc|].
  split; [reflexivity|]. split; [|reflexivity].
  intros cmdline others. unfold linked_libraries.
  change (flat_map default_libs (stub_object stub_directives :: others))
    with ("comctl32.lib" :: flat_map default_libs others).
  rewrite elem_of_app, elem_of_cons. right. by left.
Qed.

Lemma stub_requests_comctl32_import_library_witness :
  supports_pragma_form msvc
  ∧ ∃ obj, compile msvc delayload_stub = inr obj
           ∧ default_libs obj = ["comctl32.lib"]
           ∧ (∀ cmdline others, "comctl32.lib" ∈ linked_libraries cmdline (obj :: others))
           ∧ existsb is_delay_helper (default_libs obj) = false.
Proof.
  split; [split; vm_compute; reflexivity|].
  apply (stub_requests_comctl32_import_library msvc).
  split; vm_compute; reflexivity.
Defined.

(** C2 is not met by the file.  On the MSVC toolchain the object does
    carry the option [/delayload:comctl32.dll], but in the [.drectve]
    section, from which no linker takes it: link.exe passes over it with
    a warning and lld-link stops with an error.  Whatever the command
    line, the delay-load table is the one the command line alone gives;
    with no [/DELAYLOAD] there, [comctl32.dll] is bound at load time.
    Only the library request of the second pragma is taken. *)
Theorem delayload_pragma_is_not_taken :
  ∃ obj, compile msvc delayload_stub = inr obj
         ∧ LinkerOption "/delayload:comctl32.dll" ∈ drectve obj
         ∧ taken_from_drectve "/delayload:comctl32.dll" = false
         ∧ (∀ cmdline,
              ∃ r, read_inputs LinkExe cmdline [obj] = inr r
                   ∧ rd_ignored r = ["/delayload:comctl32.dll"]
                   ∧ rd_libraries r = ["comctl32.lib"]
                   ∧ rd_options r = cmdline)
         ∧ (∃ r, read_inputs LinkExe [] [obj] = inr r
                 ∧ delay_load_table r = []
                 ∧ binding_in r "comctl32.dll" = LoadTime)
         ∧ ∀ cmdline,
             read_inputs LldLink cmdline [obj]
             = inl (NotAllowedInDrectve "/delayload:comctl32.dll").
Proof.
  exists (stub_object stub_directives).
  split; [vm_compute; reflexivity|].
  split; [simpl; unfold stub_directives; set_solver|].
  split; [reflexivity|]. split; [|split].
  - intros cmdline. eexists. split; [reflexivity|]. repeat split.
  - eexists. split; [reflexivity|]. split; reflexivity.
  - intros cmdline. reflexivity.
Qed.

(** C10: when the [_MSC_VER] branch is taken, the directives of the
    object are exactly [/delayload:comctl32.dll] and the default library
    [comctl32.lib]; neither mentions [delayimp], so whenever a link that
    takes the object searches the delay-load helper library, the command
    line or another object asked for it. *)
Theorem stub_directives_exact (tc : toolchain) :
  supports_pragma_form tc →
  ∃ obj, compile tc delayload_stub = inr obj
         ∧ drectve obj = [ LinkerOption "/delayload:comctl32.dll"; DefaultLib "comctl32.lib" ]
         ∧ Forall (fun d => names_delay_helper d = false) (drectve obj)
         ∧ ∀ cmdline others lib,
             is_delay_helper lib = true →
             lib ∈ linked_libraries cmdline (obj :: others) →
             lib ∈ (lowercase <$> cmdline) ∨ ∃ o, o ∈ others ∧ lib ∈ default_libs o.
Proof.
  intros Htc. exists (stub_object stub_directives).
  split; [by apply compile_stub_msvc|].
  split; [reflexivity|].
  split; [repeat constructor|].
  intros cmdline others lib Hlib. unfold linked_libraries.
  change (flat_map default_libs (stub_object stub_directives :: others))
    with ("comctl32.lib" :: flat_map default_libs others).
  rewrite elem_of_app, elem_of_cons. intros [Hc | [Hs | Ho]].
  - by left.
  - subst lib. discriminate Hlib.
  - right. apply list_elem_of_In, in_flat_map in Ho as [o [Ho Hl]].
    exists o. by rewrite !list_elem_of_In.
Qed.

Lemma stub_directives_exact_witness :
  supports_pragma_form msvc
  ∧ ∃ obj, compile msvc delayload_stub = inr obj
           ∧ drectve obj = [ LinkerOption "/delayload:comctl32.dll"; DefaultLib "comctl32.lib" ]
           ∧ Forall (fun d => names_delay_helper d = false) (drectve obj)
           ∧ ∀ cmdline others lib,
               is_delay_helper lib = true →
               lib ∈ linked_libraries cmdline (obj :: others) →
               lib ∈ (lowercase <$> cmdline) ∨ ∃ o, o ∈ others ∧ lib ∈ default_libs o.
Proof.
  split; [split; vm_compute; reflexivity|].
  apply (stub_directives_exact msvc).
  split; vm_compute; reflexivity.
Defined.

(** ** Outside the [_MSC_VER] branch *)

(** C4: on a toolchain that does not define [_MSC_VER], whatever it does
    with pragmas it does not know, the file compiles and the object
    carries no linker directive: no library is requested and no DLL is
    marked delay-loaded. *)
Theorem stub_without_msc_ver (tc : toolchain) :
  msc_ver tc = false →
  ∃ obj, compile tc delayload_stub = inr obj
         ∧ drectve obj = []
         ∧ pragmas (preprocess (predefined tc) delayload_stub) = []
         ∧ ∀ dll, import_binding_of [obj] dll = LoadTime.
Proof.
  intros Hm. exists (stub_object []).
  split; [by apply compile_stub_other|]. split; [reflexivity|]. split.
  - rewrite preprocess_stub. unfold msc_ver in Hm. rewrite Hm. reflexivity.
  - intros dll. reflexivity.
Qed.

Lemma stub_without_msc_ver_witness :
  msc_ver gcc_strict = false
  ∧ ∃ obj, compile gcc_strict delayload_stub = inr obj
           ∧ drectve obj = []
           ∧ pragmas (preprocess (predefined gcc_strict) delayload_stub) = []
           ∧ ∀ dll, import_binding_of [obj] dll = LoadTime.
Proof.
  split; [vm_compute; reflexivity|].
  apply (stub_without_msc_ver gcc_strict). vm_compute. reflexivity.
Defined.

(** ** The exported function at run time *)

(** C3: [uicp_force_comctl32_delayload] has no parameters and returns
    [void]; every call with no arguments, from every machine state and
    with every fuel, yields no value and leaves the globals and the trace
    of outgoing calls as they were; a call that passes an argument is
    rejected. *)
Theorem call_leaves_state_unchanged :
  fn_params uicp_force_comctl32_delayload = []
  ∧ fn_return uicp_force_comctl32_delayload = Tvoid
  ∧ (∀ fuel m, call fuel uicp_force_comctl32_delayload [] m = Done None m)
  ∧ (∀ fuel a args m, call fuel uicp_force_comctl32_delayload (a :: args) m = Fault).
Proof.
  split; [reflexivity|]. split; [reflexivity|]. split.
  - intros [|fuel] m; reflexivity.
  - intros fuel a args m. reflexivity.
Qed.

(** C7: the body of [uicp_force_comctl32_delayload] is empty, so running
    it executes no statement: the call returns for every fuel, zero
    included, and never times out or faults. *)
Theorem call_terminates :
  fn_body uicp_force_comctl32_delayload = []
  ∧ (∀ locals m, exec 0 (fn_body uicp_force_comctl32_delayload) locals m = Fallthrough locals m)
  ∧ (∀ fuel m, ∃ r m', call fuel uicp_force_comctl32_delayload [] m = Done r m')
  ∧ (∀ fuel m, call fuel uicp_force_comctl32_delayload [] m ≠ Timeout
               ∧ call fuel uicp_force_comctl32_delayload [] m ≠ Fault).
Proof.
  split; [reflexivity|]. split; [reflexivity|]. split.
  - intros [|fuel] m; exists None, m; reflexivity.
  - intros [|fuel] m; split; discriminate.
Qed.

(** C8: the function takes no input, and any two calls, from any two
    machine states, with any two fuels, return the same (absent) value
    and each leaves its own state untouched, so calls from equal states
    have equal results; the function the object holds is the same under
    any two toolchains. *)
Theorem call_is_input_independent :
  fn_params uicp_force_comctl32_delayload = []
  ∧ (∀ fuel1 fuel2 m1 m2,
       ∃ m1' m2', call fuel1 uicp_force_comctl32_delayload [] m1 = Done None m1'
                  ∧ call fuel2 uicp_force_comctl32_delayload [] m2 = Done None m2'
                  ∧ m1' = m1 ∧ m2' = m2)
  ∧ (∀ fuel1 fuel2 m,
       call fuel1 uicp_force_comctl32_delayload [] m
       = call fuel2 uicp_force_comctl32_delayload [] m)
  ∧ (∀ tc1 tc2,
       functions (preprocess (predefined tc1) delayload_stub)
       = functions (preprocess (predefined tc2) delayload_stub)).
Proof.
  split; [reflexivity|]. split; [|split].
  - intros [|fuel1] [|fuel2] m1 m2; exists m1, m2; repeat split.
  - intros [|fuel1] [|fuel2] m; reflexivity.
  - intros tc1 tc2. by rewrite !functions_preprocess_stub.
Qed.

(** ** The exported symbol *)

(** C5: on every supported toolchain the object of the file has
    [uicp_force_comctl32_delayload] in its symbol table as a global
    symbol; a reference to that name resolves in every list of objects
    that contains the object, and an object of another translation unit
    that refers to the name links with it. *)
Theorem stub_symbol_is_external (tc : toolchain) :
  supported tc →
  ∃ obj, compile tc delayload_stub = inr obj
         ∧ fn_storage uicp_force_comctl32_delayload = NoSpecifier
         ∧ {| sym_name := "uicp_force_comctl32_delayload"; sym_binding := Global |} ∈ symtab obj
         ∧ (∀ before after,
              ∃ o, resolve (before ++ obj :: after) "uicp_force_comctl32_delayload" = Some o
                   ∧ exports o "uicp_force_comctl32_delayload" = true)
         ∧ ∀ cmdline,
             ∃ img, link cmdline [referencing_object "uicp_force_comctl32_delayload"; obj] = inr img
                    ∧ "uicp_force_comctl32_delayload" ∈ img_symbols img.
Proof.
  intros Hs. destruct (compile_stub_supported tc Hs) as [ds Hc].
  exists (stub_object ds). split; [exact Hc|]. split; [reflexivity|].
  split; [simpl; set_solver|]. split.
  - intros before after. apply (resolve_some _ (stub_object ds)).
    + set_solver.
    + apply stub_object_exports.
  - intros cmdline. apply link_stub_with_reference.
Qed.

Lemma stub_symbol_is_external_witness :
  supported msvc
  ∧ ∃ obj, compile msvc delayload_stub = inr obj
           ∧ fn_storage uicp_force_comctl32_delayload = NoSpecifier
           ∧ {| sym_name := "uicp_force_comctl32_delayload"; sym_binding := Global |} ∈ symtab obj
           ∧ (∀ before after,
                ∃ o, resolve (before ++ obj :: after) "uicp_force_comctl32_delayload" = Some o
                     ∧ exports o "uicp_force_comctl32_delayload" = true)
           ∧ ∀ cmdline,
               ∃ img, link cmdline [referencing_object "uicp_force_comctl32_delayload"; obj] = inr img
                      ∧ "uicp_force_comctl32_delayload" ∈ img_symbols img.
Proof.
  split; [intros _; discriminate|].
  apply (stub_symbol_is_external msvc). intros _. discriminate.
Defined.

(** C9: the definition of [uicp_force_comctl32_delayload] is a top-level
    item of the file, not an item under [#ifdef _MSC_VER]; whatever
    macros are defined it survives preprocessing, and on every supported
    toolchain, with or without [_MSC_VER], the object holds and exports
    it, so a reference from another object resolves to this object. *)
Theorem function_outside_guard (tc : toolchain) :
  supported tc →
  FunctionDef uicp_force_comctl32_delayload ∈ delayload_stub
  ∧ (∀ macros, functions (preprocess macros delayload_stub) = [uicp_force_comctl32_delayload])
  ∧ ∃ obj, compile tc delayload_stub = inr obj
           ∧ text obj = [uicp_force_comctl32_delayload]
           ∧ exports obj "uicp_force_comctl32_delayload" = true
           ∧ resolve [referencing_object "uicp_force_comctl32_delayload"; obj]
                     "uicp_force_comctl32_delayload" = Some obj.
Proof.
  intros Hs. split; [unfold delayload_stub; set_solver|].
  split; [apply functions_preprocess_stub|].
  destruct (compile_stub_supported tc Hs) as [ds Hc].
  exists (stub_object ds). split; [exact Hc|]. repeat split.
Qed.

Lemma function_outside_guard_witness :
  supported gcc
  ∧ msc_ver gcc = false
  ∧ FunctionDef uicp_force_comctl32_delayload ∈ delayload_stub
  ∧ (∀ macros, functions (preprocess macros delayload_stub) = [uicp_force_comctl32_delayload])
  ∧ ∃ obj, compile gcc delayload_stub = inr obj
           ∧ text obj = [uicp_force_comctl32_delayload]
           ∧ exports obj "uicp_force_comctl32_delayload" = true
           ∧ resolve [referencing_object "uicp_force_comctl32_delayload"; obj]
                     "uicp_force_comctl32_delayload" = Some obj.
Proof.
  split; [intros H; vm_compute in H; discriminate|].
  split; [vm_compute; reflexivity|].
  apply (function_outside_guard gcc). intros H. vm_compute in H. discriminate.
Defined.

(** ** Compiling the file *)




(** * Further properties of the file *)

(** ** The guard *)

Lemma msc_ver_with_macro (m v : string) (tc : toolchain) :
  msc_ver (with_macro m v tc) = (String.eqb m "_MSC_VER" || msc_ver tc)%bool.
Proof.
  unfold msc_ver, defined, with_macro. simpl.
  destruct (String.eqb_spec m "_MSC_VER") as [->|Hne]; simpl.
  - rewrite lookup_insert_eq. apply bool_decide_eq_true_2. eauto.
  - by rewrite lookup_insert_ne.
Qed.

Lemma msc_ver_without_macro (m : string) (tc : toolchain) :
  msc_ver (without_macro m tc) = (negb (String.eqb m "_MSC_VER") && msc_ver tc)%bool.
Proof.
  unfold msc_ver, defined, without_macro. simpl.
  destruct (String.eqb_spec m "_MSC_VER") as [->|Hne]; simpl.
  - rewrite lookup_delete_eq. apply bool_decide_eq_false_2. by intros [x Hx].
  - by rewrite lookup_delete_ne.
Qed.

(** X1: [#ifdef _MSC_VER] asks only whether the macro is defined.
    Defining [_MSC_VER] with any replacement text, the empty one and [0]
    included, makes a pragma-honouring compiler emit both directives;
    undefining it leaves none, whatever the compiler does with pragmas. *)
Theorem guard_ignores_macro_value :
  (∀ tc v, pragma_comment tc = Honoured →
           compile (with_macro "_MSC_VER" v tc) delayload_stub
           = inr (stub_object stub_directives))
  ∧ (∀ tc, compile (without_macro "_MSC_VER" tc) delayload_stub = inr (stub_object [])).
Proof.
  split.
  - intros tc v Hp. rewrite compile_stub, msc_ver_with_macro. simpl.
    change (pragma_comment (with_macro "_MSC_VER" v tc)) with (pragma_comment tc).
    by rewrite Hp.
  - intros tc. rewrite compile_stub, msc_ver_without_macro. reflexivity.
Qed.

Lemma guard_ignores_macro_value_witness :
  compile (with_macro "_MSC_VER" "0" gcc_strict) delayload_stub
  = inl (E_UICP_0101 (UnknownPragma "/delayload:comctl32.dll"))
  ∧ compile (with_macro "_MSC_VER" "" msvc) delayload_stub = inr (stub_object stub_directives)
  ∧ compile (without_macro "_MSC_VER" msc_ver_strict) delayload_stub = inr (stub_object []).
Proof.
  split; [vm_compute; reflexivity|]. split.
  - apply (proj1 guard_ignores_macro_value msvc ""). reflexivity.
  - apply (proj2 guard_ignores_macro_value msc_ver_strict).
Defined.

(** X4: when the file compiles, its object carries linker directives
    exactly when the compiler defines [_MSC_VER] and honours the pragma;
    a compiler that defines [_MSC_VER] but drops the pragma builds the
    file without any directive. *)
Theorem directives_present_iff (tc : toolchain) (obj : object_file) :
  compile tc delayload_stub = inr obj →
  (drectve obj ≠ [] ↔ supports_pragma_form tc)
  ∧ (drectve obj = [] ∨ drectve obj = stub_directives).
Proof.
  rewrite compile_stub. unfold supports_pragma_form.
  destruct (msc_ver tc), (pragma_comment tc); intros H; try discriminate H;
    injection H as <-; simpl; (split; [split|]);
    try (intros [? ?]; discriminate); try (intros ?; done);
    try (by left); try (by right).
Qed.

Lemma directives_present_iff_witness :
  compile msc_ver_ignoring delayload_stub = inr (stub_object [])
  ∧ (drectve (stub_object []) ≠ [] ↔ supports_pragma_form msc_ver_ignoring)
  ∧ (drectve (stub_object []) = [] ∨ drectve (stub_object []) = stub_directives).
Proof.
  split; [vm_compute; reflexivity|].
  apply (directives_present_iff msc_ver_ignoring). vm_compute. reflexivity.
Defined.
